(** * The node registry of [panel/app/routers/nodes.py]

    A shallow embedding of the four endpoints of the nodes router
    ([create_node], [list_nodes], [get_node], [delete_node]) over an explicit
    model of the [nodes] table, and the properties of the registry proved
    about it. *)

From Stdlib Require Import ZArith String.
From stdpp Require Import base option list strings gmap.

Local Open Scope string_scope.
Local Open Scope list_scope.
Local Open Scope Z_scope.

(** ** Values *)

(** JSON-compatible values, the range of a metadata mapping. *)
#[warnings="-register-all"]
Inductive json : Type :=
| JNull
| JBool (b : bool)
| JInt (z : Z)
| JStr (s : string)
| JList (items : list json)
| JDict (items : list (string * json)).

(** A Python [dict] with string keys. *)
Abbreviation dict := (gmap string json).

(** [datetime] values, as a count of microseconds. *)
Abbreviation datetime := Z.

(** [bool(d)] for a dict: true exactly when it has a key. *)
Definition dict_truthy (d : dict) : bool := negb (size d =? 0)%nat.

(** [d or {}]. *)
Definition dict_or_empty (d : dict) : dict := if dict_truthy d then d else ∅.

(** [d.update(other)]: every item of [other] is assigned into [d]. *)
Definition dict_update (d other : dict) : dict :=
  map_fold (λ k v acc, <[k:=v]> acc) d other.

(** ** Records *)

(** A row of the [nodes] table, as the ORM class [Node] presents it. The
    metadata column is nullable. *)
Module Node.
Record t : Type := mk {
  id : string;
  name : string;
  fingerprint : string;
  status : string;
  registered_at : datetime;
  last_seen : datetime;
  node_metadata : option dict
}.

Definition set_last_seen (v : datetime) (n : t) : t :=
  mk (id n) (name n) (fingerprint n) (status n) (registered_at n) v
     (node_metadata n).

Definition set_status (v : string) (n : t) : t :=
  mk (id n) (name n) (fingerprint n) v (registered_at n) (last_seen n)
     (node_metadata n).

Definition set_node_metadata (v : option dict) (n : t) : t :=
  mk (id n) (name n) (fingerprint n) (status n) (registered_at n)
     (last_seen n) v.
End Node.

(** The request body of a registration, [class NodeCreate(BaseModel)]. *)
Module NodeCreate.
Record t : Type := mk {
  name : string;
  fingerprint : string;
  metadata : dict
}.

(** Validation of a body whose [metadata] member may be missing: the
    field default is [{}]. *)
Definition parse (name fingerprint : string) (metadata : option dict) : t :=
  mk name fingerprint (default ∅ metadata).
End NodeCreate.

(** The response body, [class NodeResponse(BaseModel)]: [metadata] is a
    [dict], never null. *)
Module NodeResponse.
Record t : Type := mk {
  id : string;
  name : string;
  fingerprint : string;
  status : string;
  registered_at : datetime;
  last_seen : datetime;
  metadata : dict
}.
End NodeResponse.

(** ** The store and the request handlers' monad *)

(** The [nodes] table: its rows, in insertion order. *)
Abbreviation Store := (list Node.t).

(** What a handler can raise. *)
Inductive Exception : Type :=
| HTTPException (status_code : Z) (detail : string)
| AttributeError
| MultipleResultsFound.

(** A handler runs against the committed table and ends with a value or an
    exception, and the table as committed when it ends. A handler that raises
    before its [commit] leaves the table as it found it. *)
Definition Handler (A : Type) : Type := Store → (Exception + A) * Store.

Global Instance Handler_ret : MRet Handler := λ A a db, (inr a, db).

Global Instance Handler_bind : MBind Handler := λ A B k m db,
  match m db with
  | (inr a, db') => k a db'
  | (inl e, db') => (inl e, db')
  end.

Definition raise {A : Type} (e : Exception) : Handler A := λ db, (inl e, db).

(** [db.execute(select(Node).where(p))]: the rows that satisfy [p]. *)
Definition execute_select (P : Node.t → Prop) `{!∀ n, Decision (P n)}
  : Handler (list Node.t) := λ db, (inr (filter P db), db).

(** [result.scalar_one_or_none()]. *)
Definition scalar_one_or_none (result : list Node.t) : Handler (option Node.t) :=
  match result with
  | [] => mret None
  | [row] => mret (Some row)
  | _ => raise MultipleResultsFound
  end.

(** [result.scalars().all()]. *)
Definition scalars_all (result : list Node.t) : Handler (list Node.t) :=
  mret result.

(** [db.commit()] with the statement the session has pending. *)
Definition commit (stmt : Store → Store) : Handler unit :=
  λ db, (inr tt, stmt db).

(** The statements a flush emits. A row is addressed by its primary key. *)
Definition INSERT (row : Node.t) : Store → Store := λ db, db ++ [row].

Definition UPDATE (set : Node.t → Node.t) (pk : string) : Store → Store :=
  fmap (λ row, if decide (Node.id row = pk) then set row else row).

Definition DELETE (pk : string) : Store → Store :=
  filter (λ row, Node.id row ≠ pk).

(** [obj.update(other)] on a nullable dict attribute: [None] has no
    [update]. *)
Definition attr_update (obj : option dict) (other : dict) : Handler dict :=
  match obj with
  | Some d => mret (dict_update d other)
  | None => raise AttributeError
  end.

(** Modelled from the spec: the column defaults of [app.models.Node], which
    is not part of the source at hand. A new row takes a freshly
    generated [id], and [registered_at] and [last_seen] both take the
    time of creation; [new_id] is what the generator yields for this row and
    [now] the clock reading. *)
Definition Node_init (new_id : string) (now : datetime)
    (name fingerprint status : string) (node_metadata : dict) : Node.t :=
  Node.mk new_id name fingerprint status now now (Some node_metadata).

(** ** The endpoints *)

(** Modelled from the spec: the declaration of the [node_metadata] column in
    [app.models.Node], which is not part of the source at hand. The
    re-registration changes the stored mapping in place, without assigning
    the attribute; the session writes such a change at the commit only for a
    column that tracks changes inside its value. The spec has the merged
    mapping persisted and returned, which is a column that does. *)
Definition node_metadata_tracked : bool := true.

(** [POST ""]: register a node, for either declaration of the metadata
    column. [now] is the reading of [datetime.utcnow()] during the call. With
    [tracked] the in-place update of the mapping is part of the flush; without
    it the commit writes [last_seen] and [status] only, and the refresh brings
    the stored mapping back. *)
Definition create_node_with (tracked : bool) (now : datetime)
    (new_id : string) (node : NodeCreate.t) : Handler Node.t :=
  result ← execute_select
             (λ n, Node.fingerprint n = NodeCreate.fingerprint node);
  existing ← scalar_one_or_none result;
  match existing with
  | Some existing =>
      let set := Node.set_status "active" ∘ Node.set_last_seen now in
      set ← (if dict_truthy (NodeCreate.metadata node) then
               md ← attr_update (Node.node_metadata existing)
                                (NodeCreate.metadata node);
               mret (if tracked
                     then Node.set_node_metadata (Some md) ∘ set
                     else set)
             else mret set);
      commit (UPDATE set (Node.id existing));;
      (* refresh reloads the row as committed *)
      mret (set existing)
  | None =>
      let db_node :=
        Node_init new_id now (NodeCreate.name node)
                  (NodeCreate.fingerprint node) "active"
                  (dict_or_empty (NodeCreate.metadata node)) in
      commit (INSERT db_node);;
      mret db_node
  end.

(** [POST ""] with the metadata column as modelled. *)
Definition create_node (now : datetime) (new_id : string) (node : NodeCreate.t)
  : Handler Node.t :=
  create_node_with node_metadata_tracked now new_id node.

(** The explicit construction of a response in [list_nodes] and [get_node]:
    [NodeResponse(id=n.id, ..., metadata=n.node_metadata or {})]. *)
Definition NodeResponse_of (n : Node.t) : NodeResponse.t :=
  NodeResponse.mk (Node.id n) (Node.name n) (Node.fingerprint n)
    (Node.status n) (Node.registered_at n) (Node.last_seen n)
    (match Node.node_metadata n with
     | Some d => dict_or_empty d
     | None => ∅
     end).

(** [GET ""]: list all nodes. *)
Definition list_nodes : Handler (list NodeResponse.t) :=
  result ← execute_select (λ _, True);
  nodes ← scalars_all result;
  mret (NodeResponse_of <$> nodes).

(** The [404] both lookups by id raise. *)
Definition not_found : Exception := HTTPException 404 "Node not found".

(** [GET "/{node_id}"]: get a node by id. *)
Definition get_node (node_id : string) : Handler NodeResponse.t :=
  result ← execute_select (λ n, Node.id n = node_id);
  node ← scalar_one_or_none result;
  match node with
  | None => raise not_found
  | Some node => mret (NodeResponse_of node)
  end.

(** [DELETE "/{node_id}"]: delete a node; the acknowledgement is the dict
    [{"status": "deleted"}]. *)
Definition delete_node (node_id : string) : Handler (gmap string string) :=
  result ← execute_select (λ n, Node.id n = node_id);
  node ← scalar_one_or_none result;
  match node with
  | None => raise not_found
  | Some node =>
      commit (DELETE (Node.id node));;
      mret {[ "status" := "deleted" ]}
  end.

(** ** Sequences of calls *)

(** A call to the registry. A registration carries what the environment
    supplies to it: the clock reading and the identifier the generator would
    give a new row. *)
Inductive Call : Type :=
| Register (now : datetime) (new_id : string) (node : NodeCreate.t)
| ListAll
| GetById (node_id : string)
| DeleteById (node_id : string).

(** The store a call leaves behind. *)
Definition step (db : Store) (c : Call) : Store :=
  match c with
  | Register now new_id node => (create_node now new_id node db).2
  | ListAll => (list_nodes db).2
  | GetById node_id => (get_node node_id db).2
  | DeleteById node_id => (delete_node node_id db).2
  end.

(** The store after a sequence of calls, one after the other. *)
Definition run (calls : list Call) (db : Store) : Store := foldl step db calls.

(** The clock readings of a sequence of calls, in order. *)
Fixpoint readings (calls : list Call) : list datetime :=
  match calls with
  | [] => []
  | Register now _ _ :: calls => now :: readings calls
  | _ :: calls => readings calls
  end.

(** A clock that never goes back: no reading is below [floor], and each is at
    least the one before. *)
Fixpoint non_decreasing (floor : datetime) (ts : list datetime) : bool :=
  match ts with
  | [] => true
  | t :: ts => (floor <=? t) && non_decreasing t ts
  end.

(** The registrations of a list of requests in turn: the records returned (or
    the first exception) and the store left. *)
Fixpoint register_all (reqs : list (datetime * string * NodeCreate.t))
    : Handler (list Node.t) :=
  match reqs with
  | [] => mret []
  | (now, new_id, node) :: reqs =>
      r ← create_node now new_id node;
      rs ← register_all reqs;
      mret (r :: rs)
  end.

(** The assignments every re-registration makes: [last_seen] and
    [status]. *)
Definition touch (now : datetime) : Node.t → Node.t :=
  Node.set_status "active" ∘ Node.set_last_seen now.

(** ** Relations between records

    What a re-registration under the fingerprint [fp] keeps of a stored
    record: the four fields it never assigns, and the whole record when its
    fingerprint is not [fp]. *)
Definition kept (fp : string) (n n' : Node.t) : Prop :=
  Node.id n' = Node.id n ∧
  Node.name n' = Node.name n ∧
  Node.fingerprint n' = Node.fingerprint n ∧
  Node.registered_at n' = Node.registered_at n ∧
  (Node.fingerprint n ≠ fp → n' = n).

(** The records of a store are timely at the clock reading [clk]: none was
    seen before it was registered, nor after [clk]. *)
Definition timely (clk : datetime) (db : Store) : Prop :=
  ∀ n, n ∈ db → Node.registered_at n ≤ Node.last_seen n ≤ clk.

(** A response serializes a stored record, in the words of the listing's
    contract: field for field the record, with the metadata defaulted to the
    empty mapping when it is stored as null. *)
Definition serializes (n : Node.t) (r : NodeResponse.t) : Prop :=
  NodeResponse.id r = Node.id n ∧
  NodeResponse.name r = Node.name n ∧
  NodeResponse.fingerprint r = Node.fingerprint n ∧
  NodeResponse.status r = Node.status n ∧
  NodeResponse.registered_at r = Node.registered_at n ∧
  NodeResponse.last_seen r = Node.last_seen n ∧
  NodeResponse.metadata r = default ∅ (Node.node_metadata n).

(** A response equals a record field for field, the metadata included. *)
Definition same_record (n : Node.t) (r : NodeResponse.t) : Prop :=
  NodeResponse.id r = Node.id n ∧
  NodeResponse.name r = Node.name n ∧
  NodeResponse.fingerprint r = Node.fingerprint n ∧
  NodeResponse.status r = Node.status n ∧
  NodeResponse.registered_at r = Node.registered_at n ∧
  NodeResponse.last_seen r = Node.last_seen n ∧
  Node.node_metadata n = Some (NodeResponse.metadata r).

(** The generator hands every registration of a sequence of calls an
    identifier that no row of the table has at the time of the call. *)
Fixpoint fresh_ids (calls : list Call) (db : Store) : bool :=
  match calls with
  | [] => true
  | c :: calls =>
      match c with
      | Register _ new_id _ => bool_decide (new_id ∉ Node.id <$> db)
      | _ => true
      end && fresh_ids calls (step db c)
  end.

(** ** Sample data

    The end-to-end scenario of the registry: two registrations under the
    fingerprint [fp1], a row under another fingerprint, and a row whose
    metadata column is null. *)

Definition req_n1 : NodeCreate.t :=
  NodeCreate.mk "n1" "fp1" {[ "zone" := JStr "a" ]}.

Definition req_n1_renamed : NodeCreate.t :=
  NodeCreate.mk "n1-renamed" "fp1" {[ "rack" := JStr "5" ]}.

Definition req_n2 : NodeCreate.t :=
  NodeCreate.mk "n2" "fp2" {[ "zone" := JStr "b" ]}.

Definition node_n1 : Node.t :=
  Node.mk "id1" "n1" "fp1" "active" 10 10 (Some {[ "zone" := JStr "a" ]}).

Definition node_n2 : Node.t :=
  Node.mk "id2" "n2" "fp2" "active" 20 20 (Some {[ "zone" := JStr "b" ]}).

Definition node_null : Node.t :=
  Node.mk "id3" "n3" "fp3" "active" 30 30 None.

(** * Properties *)

(** ** Dictionaries *)

Lemma dict_truthy_false (d : dict) : dict_truthy d = false ↔ d = ∅.
Proof.
  unfold dict_truthy. rewrite negb_false_iff, Nat.eqb_eq.
  apply map_size_empty_iff.
Qed.

Lemma dict_or_empty_id (d : dict) : dict_or_empty d = d.
Proof.
  unfold dict_or_empty. destruct (dict_truthy d) eqn:E; [done|].
  symmetry. by apply dict_truthy_false.
Qed.

(** [update] is the union in which the argument's items win. *)
Lemma dict_update_union (d other : dict) : dict_update d other = other ∪ d.
Proof.
  unfold dict_update.
  apply (map_fold_weak_ind (λ r (m : dict), r = m ∪ d)).
  - by rewrite (left_id_L ∅ (∪)).
  - intros k v m r _ ->. by rewrite insert_union_l.
Qed.

Lemma lookup_dict_update (d other : dict) (k : string) :
  dict_update d other !! k =
    match other !! k with Some v => Some v | None => d !! k end.
Proof.
  rewrite dict_update_union.
  destruct (other !! k) as [v|] eqn:E.
  - by apply lookup_union_Some_l.
  - by apply lookup_union_r.
Qed.

Lemma dict_update_empty (d : dict) : dict_update d ∅ = d.
Proof. rewrite dict_update_union. apply (left_id_L ∅ (∪)). Qed.

(** ** Queries on the table *)

Section queries.
Context {K : Type} `{EqDecision K} (key : Node.t → K).

Lemma select_none (k : K) (db : Store) :
  filter (λ n, key n = k) db = [] ↔ ∀ n, n ∈ db → key n ≠ k.
Proof.
  split.
  - intros E n Hn Hk. by eapply (filter_nil_not_elem_of _ _ n), Hn.
  - intros H. induction db as [|m db IH]; [done|].
    rewrite filter_cons_False; [|apply H; left].
    apply IH. intros n Hn. apply H. by right.
Qed.

(** Under a unique key, the selection by a stored row's key is that row. *)
Lemma select_unique (n : Node.t) (db : Store) :
  NoDup (key <$> db) → n ∈ db → filter (λ m, key m = key n) db = [n].
Proof.
  induction db as [|m db IH]; intros Hnd Hn.
  - by apply elem_of_nil in Hn.
  - rewrite fmap_cons in Hnd. apply NoDup_cons in Hnd as [Hm Hnd].
    apply elem_of_cons in Hn as [->|Hn].
    + rewrite filter_cons_True by done. f_equal.
      apply select_none. intros n Hn E. apply Hm. rewrite <- E.
      by apply list_elem_of_fmap_2.
    + rewrite filter_cons_False; [by apply IH|].
      intros E. apply Hm. rewrite E. by apply list_elem_of_fmap_2.
Qed.

(** A unique key is matched by at most one row. *)
Lemma select_at_most_one (k : K) (db : Store) :
  NoDup (key <$> db) → (length (filter (λ n, key n = k) db) ≤ 1)%nat.
Proof.
  intros Hnd. destruct (filter _ db) as [|n rest] eqn:E; [simpl; lia|].
  assert (Hn : n ∈ filter (λ n, key n = k) db) by (rewrite E; left).
  apply list_elem_of_filter in Hn as [<- Hn].
  rewrite (select_unique n db Hnd Hn) in E. by inversion E.
Qed.

Lemma select_singleton_elem (k : K) (n : Node.t) (db : Store) :
  filter (λ m, key m = k) db = [n] → n ∈ db ∧ key n = k.
Proof.
  intros E. assert (Hn : n ∈ filter (λ m, key m = k) db) by (rewrite E; left).
  apply list_elem_of_filter in Hn. tauto.
Qed.
End queries.

Lemma select_all (db : Store) : filter (λ _, True) db = db.
Proof.
  induction db as [|n db IH]; [done|].
  rewrite filter_cons_True; [by f_equal|exact I].
Qed.

(** ** The endpoints, case by case *)

Lemma list_nodes_eq (db : Store) :
  list_nodes db = (inr (NodeResponse_of <$> db), db).
Proof.
  unfold list_nodes, mbind, Handler_bind, execute_select, scalars_all.
  simpl. by rewrite select_all.
Qed.

Lemma get_node_eq (node_id : string) (db : Store) :
  get_node node_id db =
    match filter (λ n, Node.id n = node_id) db with
    | [] => (inl not_found, db)
    | [node] => (inr (NodeResponse_of node), db)
    | _ => (inl MultipleResultsFound, db)
    end.
Proof.
  unfold get_node, mbind, Handler_bind, execute_select. simpl.
  by destruct (filter _ db) as [|? [|]].
Qed.

Lemma delete_node_eq (node_id : string) (db : Store) :
  delete_node node_id db =
    match filter (λ n, Node.id n = node_id) db with
    | [] => (inl not_found, db)
    | [node] => (inr {[ "status" := "deleted" ]}, DELETE (Node.id node) db)
    | _ => (inl MultipleResultsFound, db)
    end.
Proof.
  unfold delete_node, mbind, Handler_bind, execute_select. simpl.
  by destruct (filter _ db) as [|? [|]].
Qed.

Lemma create_node_with_eq (tracked : bool) now new_id (node : NodeCreate.t)
    (db : Store) :
  create_node_with tracked now new_id node db =
    match filter (λ n, Node.fingerprint n = NodeCreate.fingerprint node) db with
    | [] =>
        let db_node :=
          Node_init new_id now (NodeCreate.name node)
            (NodeCreate.fingerprint node) "active" (NodeCreate.metadata node) in
        (inr db_node, db ++ [db_node])
    | [existing] =>
        if dict_truthy (NodeCreate.metadata node) then
          match Node.node_metadata existing with
          | Some d =>
              let set :=
                if tracked
                then Node.set_node_metadata
                       (Some (dict_update d (NodeCreate.metadata node)))
                       ∘ touch now
                else touch now in
              (inr (set existing), UPDATE set (Node.id existing) db)
          | None => (inl AttributeError, db)
          end
        else (inr (touch now existing), UPDATE (touch now) (Node.id existing) db)
    | _ => (inl MultipleResultsFound, db)
    end.
Proof.
  unfold create_node_with, mbind, Handler_bind, execute_select. simpl.
  destruct (filter _ db) as [|existing [|]]; simpl; [|..|done].
  - by rewrite dict_or_empty_id.
  - destruct (dict_truthy _); [|done].
    destruct (Node.node_metadata existing); [|done]. by destruct tracked.
Qed.

Lemma create_node_eq now new_id (node : NodeCreate.t) (db : Store) :
  create_node now new_id node db =
    match filter (λ n, Node.fingerprint n = NodeCreate.fingerprint node) db with
    | [] =>
        let db_node :=
          Node_init new_id now (NodeCreate.name node)
            (NodeCreate.fingerprint node) "active" (NodeCreate.metadata node) in
        (inr db_node, db ++ [db_node])
    | [existing] =>
        if dict_truthy (NodeCreate.metadata node) then
          match Node.node_metadata existing with
          | Some d =>
              let set :=
                Node.set_node_metadata
                  (Some (dict_update d (NodeCreate.metadata node))) ∘ touch now in
              (inr (set existing), UPDATE set (Node.id existing) db)
          | None => (inl AttributeError, db)
          end
        else (inr (touch now existing), UPDATE (touch now) (Node.id existing) db)
    | _ => (inl MultipleResultsFound, db)
    end.
Proof.
  unfold create_node, node_metadata_tracked. apply create_node_with_eq.
Qed.

Lemma get_node_store (node_id : string) (db : Store) :
  (get_node node_id db).2 = db.
Proof. rewrite get_node_eq. by destruct (filter _ db) as [|? [|]]. Qed.

Lemma get_node_found (n : Node.t) (db : Store) :
  NoDup (Node.id <$> db) → n ∈ db →
  get_node (Node.id n) db = (inr (NodeResponse_of n), db).
Proof.
  intros Hnd Hn. rewrite get_node_eq.
  by rewrite (select_unique Node.id n db Hnd Hn).
Qed.

Lemma get_node_not_found (node_id : string) (db : Store) :
  (get_node node_id db).1 = inl not_found ↔
  ∀ n, n ∈ db → Node.id n ≠ node_id.
Proof.
  rewrite get_node_eq, <- (select_none Node.id).
  by destruct (filter _ db) as [|? [|]].
Qed.

Lemma select_keep (P : Node.t → Prop) `{!∀ n, Decision (P n)} (db : Store) :
  (∀ n, n ∈ db → P n) → filter P db = db.
Proof.
  induction db as [|m db IH]; intros Hall; [done|].
  rewrite filter_cons_True by (apply Hall; left).
  f_equal. apply IH. intros n Hn. apply Hall. by right.
Qed.

(** Deleting by the key of a stored row takes out that row and no other. *)
Lemma DELETE_split (n : Node.t) (l1 l2 : Store) :
  NoDup (Node.id <$> l1 ++ n :: l2) →
  DELETE (Node.id n) (l1 ++ n :: l2) = l1 ++ l2 ∧
  ∀ m, m ∈ l1 ++ l2 → Node.id m ≠ Node.id n.
Proof.
  rewrite fmap_app, fmap_cons. intros Hnd.
  apply NoDup_app in Hnd as (_ & Hl1 & Hnd).
  apply NoDup_cons in Hnd as [Hl2 _].
  assert (Hne : ∀ m, m ∈ l1 ++ l2 → Node.id m ≠ Node.id n).
  { intros m Hm E. apply elem_of_app in Hm as [Hm|Hm].
    - apply (Hl1 (Node.id m)); [by apply list_elem_of_fmap_2|].
      rewrite E. left.
    - apply Hl2. rewrite <- E. by apply list_elem_of_fmap_2. }
  split; [|done].
  unfold DELETE. rewrite filter_app, filter_cons_False by (intros H; by apply H).
  rewrite !select_keep; [done|..]; intros m Hm; apply Hne;
    apply elem_of_app; auto.
Qed.

(** ** Reading endpoints *)

(** The responses built by [list_nodes] and [get_node] carry the stored
    mapping, or the empty one for a null column. *)
Lemma NodeResponse_of_metadata (n : Node.t) :
  NodeResponse.metadata (NodeResponse_of n) = default ∅ (Node.node_metadata n).
Proof.
  unfold NodeResponse_of. simpl.
  destruct (Node.node_metadata n); [apply dict_or_empty_id|done].
Qed.

Lemma NodeResponse_of_serializes (n : Node.t) : serializes n (NodeResponse_of n).
Proof. repeat split. apply NodeResponse_of_metadata. Qed.

(** C10: [list_nodes] and [get_node] never modify the store: whatever the id
    and whatever the store, with or without a matching record, the store after
    the call is the store before it. *)
Theorem reads_leave_store (node_id : string) (db : Store) :
  (list_nodes db).2 = db ∧ (get_node node_id db).2 = db.
Proof. split; [by rewrite list_nodes_eq | apply get_node_store]. Qed.

(** C5: [get_node] returns the serialization of the record with the given id
    when the store holds one (ids being the primary key, it is the only one):
    a response with the record's id, name, fingerprint, status and two
    timestamps, and its metadata, the empty mapping standing for a null
    column. It raises the 404 with detail ["Node not found"] exactly when no
    record has that id, and in that case the store is unchanged. *)
Theorem get_node_spec (node_id : string) (db : Store) :
  (∀ n, NoDup (Node.id <$> db) → n ∈ db → Node.id n = node_id →
     ∃ r, get_node node_id db = (inr r, db) ∧ serializes n r)
  ∧ ((get_node node_id db).1 = inl (HTTPException 404 "Node not found") ↔
     ∀ n, n ∈ db → Node.id n ≠ node_id)
  ∧ ((get_node node_id db).1 = inl (HTTPException 404 "Node not found") →
     (get_node node_id db).2 = db).
Proof.
  split; [|split].
  - intros n Hnd Hn <-. exists (NodeResponse_of n).
    split; [by apply get_node_found | apply NodeResponse_of_serializes].
  - apply get_node_not_found.
  - intros _. apply get_node_store.
Qed.

Lemma get_node_spec_witness :
  NoDup (Node.id <$> [node_n1; node_null]) ∧
  node_null ∈ [node_n1; node_null] ∧
  Node.id node_null = "id3" ∧
  ∃ r, get_node "id3" [node_n1; node_null] = (inr r, [node_n1; node_null]) ∧
       serializes node_null r.
Proof.
  assert (Hnd : NoDup (Node.id <$> [node_n1; node_null])).
  { apply (bool_decide_unpack _). vm_compute. exact I. }
  assert (Hn : node_null ∈ [node_n1; node_null]) by (right; left).
  split; [exact Hnd|]. split; [exact Hn|]. split; [reflexivity|].
  exact (proj1 (get_node_spec "id3" [node_n1; node_null]) node_null
           Hnd Hn eq_refl).
Defined.

(** ** Deletion *)

(** C4: [delete_node] raises the 404 with detail ["Node not found"] and
    leaves the store unchanged when no record has the id; when the store holds
    a record with that id (ids being the primary key), it removes exactly that
    record, returns [{"status": "deleted"}], and afterwards [get_node] on the
    same id raises the 404 and no listed record has that id. *)
Theorem delete_node_spec (node_id : string) (db : Store) :
  ((∀ n, n ∈ db → Node.id n ≠ node_id) →
     delete_node node_id db = (inl (HTTPException 404 "Node not found"), db))
  ∧ (∀ n, NoDup (Node.id <$> db) → n ∈ db → Node.id n = node_id →
     ∃ l1 l2, db = l1 ++ n :: l2 ∧
       delete_node node_id db = (inr {[ "status" := "deleted" ]}, l1 ++ l2) ∧
       get_node node_id (l1 ++ l2) =
         (inl (HTTPException 404 "Node not found"), l1 ++ l2) ∧
       ∃ rs, list_nodes (l1 ++ l2) = (inr rs, l1 ++ l2) ∧
             ∀ r, r ∈ rs → NodeResponse.id r ≠ node_id).
Proof.
  split.
  - intros H. rewrite delete_node_eq.
    by rewrite (proj2 (select_none Node.id node_id db) H).
  - intros n Hnd Hn <-.
    destruct (list_elem_of_split db n Hn) as (l1 & l2 & ->).
    destruct (DELETE_split n l1 l2 Hnd) as [Hdel Hne].
    exists l1, l2. split; [done|]. split; [|split].
    + rewrite delete_node_eq.
      by rewrite (select_unique Node.id n _ Hnd Hn), Hdel.
    + rewrite get_node_eq.
      by rewrite (proj2 (select_none Node.id (Node.id n) (l1 ++ l2)) Hne).
    + exists (NodeResponse_of <$> (l1 ++ l2)).
      split; [apply list_nodes_eq|].
      intros r Hr. apply list_elem_of_fmap in Hr as (m & -> & Hm).
      by apply Hne.
Qed.

Lemma delete_node_spec_witness :
  delete_node "id9" [node_n1; node_n2] =
    (inl (HTTPException 404 "Node not found"), [node_n1; node_n2]) ∧
  ∃ l1 l2, [node_n1; node_n2] = l1 ++ node_n1 :: l2 ∧
    delete_node "id1" [node_n1; node_n2] =
      (inr {[ "status" := "deleted" ]}, l1 ++ l2) ∧
    get_node "id1" (l1 ++ l2) =
      (inl (HTTPException 404 "Node not found"), l1 ++ l2) ∧
    ∃ rs, list_nodes (l1 ++ l2) = (inr rs, l1 ++ l2) ∧
          ∀ r, r ∈ rs → NodeResponse.id r ≠ "id1".
Proof.
  split.
  - apply (proj1 (delete_node_spec "id9" [node_n1; node_n2])).
    intros n Hn. apply elem_of_cons in Hn as [->|Hn]; [done|].
    apply elem_of_cons in Hn as [->|Hn]; [done|]. by apply elem_of_nil in Hn.
  - apply (proj2 (delete_node_spec "id1" [node_n1; node_n2]) node_n1).
    + apply (bool_decide_unpack _). vm_compute. exact I.
    + left.
    + reflexivity.
Defined.

(** ** Registration *)

Lemma create_node_absent now new_id (node : NodeCreate.t) (db : Store) :
  (∀ n, n ∈ db → Node.fingerprint n ≠ NodeCreate.fingerprint node) →
  let db_node :=
    Node_init new_id now (NodeCreate.name node) (NodeCreate.fingerprint node)
      "active" (NodeCreate.metadata node) in
  create_node now new_id node db = (inr db_node, db ++ [db_node]).
Proof.
  intros H. rewrite create_node_eq.
  by rewrite (proj2 (select_none Node.fingerprint _ db) H).
Qed.

(** The re-registration of a fingerprint whose row holds a mapping: the row is
    touched and the request's items are assigned into its mapping. *)
Lemma create_node_present now new_id (node : NodeCreate.t) (db : Store)
    (n : Node.t) (d : dict) :
  NoDup (Node.fingerprint <$> db) → n ∈ db →
  Node.fingerprint n = NodeCreate.fingerprint node →
  Node.node_metadata n = Some d →
  let n' :=
    Node.mk (Node.id n) (Node.name n) (Node.fingerprint n) "active"
      (Node.registered_at n) now (Some (NodeCreate.metadata node ∪ d)) in
  (create_node now new_id node db).1 = inr n' ∧
  n' ∈ (create_node now new_id node db).2 ∧
  length (create_node now new_id node db).2 = length db.
Proof.
  intros Hnd Hn Hfp Hmd. rewrite create_node_eq, <- Hfp.
  rewrite (select_unique Node.fingerprint n db Hnd Hn), Hmd.
  destruct (dict_truthy _) eqn:E; simpl.
  - rewrite dict_update_union. split; [done|]. split.
    + unfold UPDATE. apply (list_elem_of_fmap_2' _ _ n); [done|].
      by rewrite decide_True.
    + unfold UPDATE. by rewrite length_fmap.
  - apply dict_truthy_false in E. rewrite E, (left_id_L ∅ (∪)).
    assert (Ht : touch now n =
              Node.mk (Node.id n) (Node.name n) (Node.fingerprint n) "active"
                (Node.registered_at n) now (Some d)).
    { unfold touch, Node.set_status, Node.set_last_seen. simpl.
      by rewrite Hmd. }
    rewrite <- Ht. split; [done|]. split.
    + unfold UPDATE. apply (list_elem_of_fmap_2' _ _ n); [done|].
      by rewrite decide_True.
    + unfold UPDATE. by rewrite length_fmap.
Qed.

Lemma UPDATE_absent (set : Node.t → Node.t) (pk : string) (db : Store) :
  (∀ n, n ∈ db → Node.id n ≠ pk) → UPDATE set pk db = db.
Proof.
  intros Habs. unfold UPDATE. induction db as [|m db IH]; [done|].
  rewrite fmap_cons, decide_False by (apply Habs; left).
  f_equal. apply IH. intros n Hn. apply Habs. by right.
Qed.

(** Registering a new fingerprint and then the same one again leaves one
    record under it, with the union of the two mappings in which the second
    call's items win. *)
Lemma register_twice now1 now2 id1 id2 (node1 node2 : NodeCreate.t) (db : Store) :
  (∀ n, n ∈ db → Node.fingerprint n ≠ NodeCreate.fingerprint node1) →
  (∀ n, n ∈ db → Node.id n ≠ id1) →
  NodeCreate.fingerprint node2 = NodeCreate.fingerprint node1 →
  let r :=
    Node.mk id1 (NodeCreate.name node1) (NodeCreate.fingerprint node1) "active"
      now1 now2 (Some (NodeCreate.metadata node2 ∪ NodeCreate.metadata node1)) in
  create_node now2 id2 node2 (create_node now1 id1 node1 db).2 =
    (inr r, db ++ [r]).
Proof.
  intros Habs Hid Hfp. simpl.
  rewrite (create_node_absent now1 id1 node1 db Habs). simpl.
  set (n1 := Node_init _ _ _ _ _ _).
  assert (Hsel : filter (λ n, Node.fingerprint n = NodeCreate.fingerprint node1)
                   (db ++ [n1]) = [n1]).
  { rewrite filter_app, (proj2 (select_none Node.fingerprint _ db) Habs).
    by rewrite filter_cons_True. }
  assert (Hupd : ∀ set, UPDATE set (Node.id n1) (db ++ [n1]) = db ++ [set n1]).
  { intros set. unfold UPDATE. rewrite fmap_app.
    fold (UPDATE set (Node.id n1) db). rewrite UPDATE_absent by done.
    simpl. by rewrite decide_True. }
  rewrite create_node_eq, Hfp, Hsel.
  destruct (dict_truthy (NodeCreate.metadata node2)) eqn:E; simpl.
  - by rewrite Hupd, dict_update_union.
  - apply dict_truthy_false in E. by rewrite Hupd, E, (left_id_L ∅ (∪)).
Qed.

(** C2: a registration whose fingerprint matches no stored record creates and
    returns a new record, appended to the store, with the generated
    identifier, status ["active"], [registered_at] equal to [last_seen], the
    request's name and fingerprint, and the supplied mapping as metadata, or
    the empty mapping when the request supplies none. *)
Theorem create_node_new now new_id (name fingerprint : string)
    (metadata : option dict) (db : Store) :
  (∀ n, n ∈ db → Node.fingerprint n ≠ fingerprint) →
  ∃ r, create_node now new_id (NodeCreate.parse name fingerprint metadata) db =
         (inr r, db ++ [r]) ∧
       Node.id r = new_id ∧
       Node.name r = name ∧
       Node.fingerprint r = fingerprint ∧
       Node.status r = "active" ∧
       Node.registered_at r = Node.last_seen r ∧
       Node.node_metadata r = Some (default ∅ metadata).
Proof.
  intros Habs. eexists. split.
  - by apply (create_node_absent now new_id
               (NodeCreate.parse name fingerprint metadata) db).
  - by simpl.
Qed.

Lemma create_node_new_witness :
  ∃ r, create_node 20 "id2" (NodeCreate.parse "n2" "fp2" None) [node_n1] =
         (inr r, [node_n1] ++ [r]) ∧
       Node.id r = "id2" ∧
       Node.name r = "n2" ∧
       Node.fingerprint r = "fp2" ∧
       Node.status r = "active" ∧
       Node.registered_at r = Node.last_seen r ∧
       Node.node_metadata r = Some (default ∅ None).
Proof.
  apply (create_node_new 20 "id2" "n2" "fp2" None [node_n1]).
  intros n Hn. apply elem_of_cons in Hn as [->|Hn]; [done|].
  by apply elem_of_nil in Hn.
Defined.

(** On a row whose metadata column is null, a re-registration that carries
    items raises and commits nothing. *)
Lemma create_node_null_raises now new_id (node : NodeCreate.t) (db : Store)
    (n : Node.t) :
  NoDup (Node.fingerprint <$> db) → n ∈ db →
  Node.fingerprint n = NodeCreate.fingerprint node →
  Node.node_metadata n = None →
  NodeCreate.metadata node ≠ ∅ →
  create_node now new_id node db = (inl AttributeError, db).
Proof.
  intros Hnd Hn Hfp Hmd Hne. rewrite create_node_eq, <- Hfp.
  rewrite (select_unique Node.fingerprint n db Hnd Hn), Hmd.
  destruct (dict_truthy _) eqn:E; [done|].
  by apply dict_truthy_false in E.
Qed.

(** C1, at a stored node whose metadata column is null: the re-registration
    with a non-empty mapping raises [AttributeError] and commits nothing, so
    the record is neither updated nor returned. *)
Theorem create_node_null_metadata :
  create_node 40 "id4" (NodeCreate.mk "n3" "fp3" {[ "rack" := JStr "5" ]})
    [node_n1; node_null] = (inl AttributeError, [node_n1; node_null]).
Proof. reflexivity. Qed.

(** C9, at a stored node whose metadata column is null: the re-registration
    with an empty mapping returns the record with its metadata still null. *)
Theorem create_node_returns_null :
  ∃ r, (create_node 40 "id4" (NodeCreate.parse "n3" "fp3" None)
          [node_n1; node_null]).1 = inr r ∧
       Node.node_metadata r = None.
Proof. eexists. split; reflexivity. Qed.

(** ** What a re-registration leaves alone *)

Lemma unique_key {K : Type} (key : Node.t → K) (n m : Node.t) (db : Store) :
  NoDup (key <$> db) → n ∈ db → m ∈ db → key n = key m → n = m.
Proof.
  induction db as [|x db IH]; intros Hnd Hn Hm E.
  - by apply elem_of_nil in Hn.
  - rewrite fmap_cons in Hnd. apply NoDup_cons in Hnd as [Hx Hnd].
    apply elem_of_cons in Hn as [->|Hn]; apply elem_of_cons in Hm as [->|Hm].
    + done.
    + exfalso. apply Hx. rewrite E. by apply list_elem_of_fmap_2.
    + exfalso. apply Hx. rewrite <- E. by apply list_elem_of_fmap_2.
    + by apply IH.
Qed.

Lemma UPDATE_pointwise (R : Node.t → Node.t → Prop) (set : Node.t → Node.t)
    (pk : string) (db : Store) :
  (∀ n, n ∈ db → Node.id n = pk → R n (set n)) →
  (∀ n, n ∈ db → Node.id n ≠ pk → R n n) →
  Forall2 R db (UPDATE set pk db).
Proof.
  intros Hset Hkeep. unfold UPDATE.
  apply Forall2_fmap_r, Forall_Forall2_diag, Forall_forall.
  intros n Hn. simpl. destruct (decide (Node.id n = pk)); auto.
Qed.

Lemma kept_refl (fp : string) (db : Store) : Forall2 (kept fp) db db.
Proof. apply Forall_Forall2_diag, Forall_forall. by intros n _. Qed.

Lemma UPDATE_kept (fp : string) (set : Node.t → Node.t) (existing : Node.t)
    (db : Store) :
  NoDup (Node.id <$> db) → existing ∈ db → Node.fingerprint existing = fp →
  (∀ n, Node.id (set n) = Node.id n ∧ Node.name (set n) = Node.name n ∧
        Node.fingerprint (set n) = Node.fingerprint n ∧
        Node.registered_at (set n) = Node.registered_at n) →
  Forall2 (kept fp) db (UPDATE set (Node.id existing) db) ∧
  set existing ∈ UPDATE set (Node.id existing) db.
Proof.
  intros Hnd Hex Hfp Hset. split.
  - apply UPDATE_pointwise.
    + intros n Hn Hid. destruct (Hset n) as (? & ? & ? & ?).
      repeat split; try done.
      intros Hne. exfalso. apply Hne.
      by rewrite (unique_key Node.id n existing db Hnd Hn Hex Hid).
    + by intros n _ _.
  - unfold UPDATE. apply (list_elem_of_fmap_2' _ _ existing); [done|].
    by rewrite decide_True.
Qed.

(** C6: a registration whose fingerprint matches a stored record leaves the
    name, id, fingerprint and [registered_at] of every stored record as they
    were (the name of the request is ignored), leaves every record under
    another fingerprint unchanged altogether, and what it returns is the
    stored record of that fingerprint with these four fields as before. Ids
    are the primary key of the table. *)
Theorem create_node_frame now new_id (node : NodeCreate.t) (db : Store) :
  NoDup (Node.id <$> db) →
  (∃ n, n ∈ db ∧ Node.fingerprint n = NodeCreate.fingerprint node) →
  Forall2 (kept (NodeCreate.fingerprint node)) db
    (create_node now new_id node db).2 ∧
  ∀ r, (create_node now new_id node db).1 = inr r →
    r ∈ (create_node now new_id node db).2 ∧
    ∃ n, n ∈ db ∧ Node.fingerprint n = NodeCreate.fingerprint node ∧
         Node.id r = Node.id n ∧ Node.name r = Node.name n ∧
         Node.fingerprint r = Node.fingerprint n ∧
         Node.registered_at r = Node.registered_at n.
Proof.
  intros Hnd (n0 & Hn0 & Hfp0). rewrite create_node_eq.
  destruct (filter _ db) as [|existing [|]] eqn:Hsel.
  - exfalso. by apply (proj1 (select_none Node.fingerprint _ db) Hsel n0).
  - apply (select_singleton_elem Node.fingerprint) in Hsel as [Hex Hfp].
    destruct (dict_truthy _); [destruct (Node.node_metadata existing)|].
    + cbv zeta. set (f := Node.set_node_metadata _ ∘ touch now).
      destruct (UPDATE_kept _ f existing db Hnd Hex Hfp) as [Hk Hin]; [done|].
      split; [exact Hk|].
      intros r [= <-]. split; [exact Hin|]. by exists existing.
    + split; [apply kept_refl | by intros r [=]].
    + destruct (UPDATE_kept _ (touch now) existing db Hnd Hex Hfp)
        as [Hk Hin]; [done|].
      split; [exact Hk|].
      intros r [= <-]. split; [exact Hin|]. by exists existing.
  - split; [apply kept_refl | by intros r [=]].
Qed.

Lemma create_node_frame_witness :
  NoDup (Node.id <$> [node_n1; node_n2]) ∧
  (∃ n, n ∈ [node_n1; node_n2] ∧
        Node.fingerprint n = NodeCreate.fingerprint req_n1_renamed) ∧
  Forall2 (kept (NodeCreate.fingerprint req_n1_renamed)) [node_n1; node_n2]
    (create_node 40 "id4" req_n1_renamed [node_n1; node_n2]).2 ∧
  ∀ r, (create_node 40 "id4" req_n1_renamed [node_n1; node_n2]).1 = inr r →
    r ∈ (create_node 40 "id4" req_n1_renamed [node_n1; node_n2]).2 ∧
    ∃ n, n ∈ [node_n1; node_n2] ∧
         Node.fingerprint n = NodeCreate.fingerprint req_n1_renamed ∧
         Node.id r = Node.id n ∧ Node.name r = Node.name n ∧
         Node.fingerprint r = Node.fingerprint n ∧
         Node.registered_at r = Node.registered_at n.
Proof.
  assert (Hnd : NoDup (Node.id <$> [node_n1; node_n2])).
  { apply (bool_decide_unpack _). vm_compute. exact I. }
  assert (Hex : ∃ n, n ∈ [node_n1; node_n2] ∧
                     Node.fingerprint n = NodeCreate.fingerprint req_n1_renamed).
  { exists node_n1. split; [left|reflexivity]. }
  split; [exact Hnd|]. split; [exact Hex|].
  exact (create_node_frame 40 "id4" req_n1_renamed [node_n1; node_n2] Hnd Hex).
Defined.

(** ** Invariants of the store *)

Section invariant.
Variable P : Store → Prop.
Hypothesis step_P : ∀ db c, P db → P (step db c).

Lemma run_invariant (calls : list Call) (db : Store) :
  P db → P (run calls db).
Proof.
  unfold run. revert db.
  induction calls as [|c calls IH]; intros db Hdb; [done|].
  simpl. by apply IH, step_P.
Qed.
End invariant.

Lemma NoDup_fmap_filter {K : Type} (key : Node.t → K) (Q : Node.t → Prop)
    `{!∀ n, Decision (Q n)} (db : Store) :
  NoDup (key <$> db) → NoDup (key <$> filter Q db).
Proof.
  induction db as [|m db IH]; [done|].
  rewrite fmap_cons. intros [Hm Hnd]%NoDup_cons. rewrite filter_cons.
  destruct (decide (Q m)); [|by apply IH].
  rewrite fmap_cons. apply NoDup_cons. split; [|by apply IH].
  intros (n & E & Hn)%list_elem_of_fmap. apply Hm. rewrite E.
  apply list_elem_of_fmap_2. by apply list_elem_of_filter in Hn as [_ Hn].
Qed.

Lemma fingerprints_UPDATE (set : Node.t → Node.t) (pk : string) (db : Store) :
  (∀ n, Node.fingerprint (set n) = Node.fingerprint n) →
  Node.fingerprint <$> UPDATE set pk db = Node.fingerprint <$> db.
Proof.
  intros Hset. unfold UPDATE. rewrite <- list_fmap_compose.
  apply list_fmap_ext. intros _ n _. simpl.
  by destruct (decide (Node.id n = pk)).
Qed.

Lemma create_node_fingerprints now new_id (node : NodeCreate.t) (db : Store) :
  NoDup (Node.fingerprint <$> db) →
  NoDup (Node.fingerprint <$> (create_node now new_id node db).2).
Proof.
  intros Hnd. rewrite create_node_eq.
  destruct (filter _ db) as [|existing [|]] eqn:Hsel; simpl; [| |done].
  - rewrite fmap_app. apply NoDup_app. split; [done|]. split.
    + intros fp (n & -> & Hn)%list_elem_of_fmap Hfp.
      apply list_elem_of_singleton in Hfp.
      by apply (proj1 (select_none Node.fingerprint _ db) Hsel n).
    + apply NoDup_singleton.
  - destruct (dict_truthy _); [destruct (Node.node_metadata existing)|];
      simpl; [|done|]; by rewrite fingerprints_UPDATE.
Qed.

Lemma delete_node_fingerprints (node_id : string) (db : Store) :
  NoDup (Node.fingerprint <$> db) →
  NoDup (Node.fingerprint <$> (delete_node node_id db).2).
Proof.
  intros Hnd. rewrite delete_node_eq.
  destruct (filter _ db) as [|node [|]]; simpl; [done| |done].
  by apply NoDup_fmap_filter.
Qed.

Lemma step_fingerprints (db : Store) (c : Call) :
  NoDup (Node.fingerprint <$> db) → NoDup (Node.fingerprint <$> step db c).
Proof.
  intros Hnd. destruct c as [now new_id node| |node_id|node_id]; unfold step.
  - by apply create_node_fingerprints.
  - by rewrite list_nodes_eq.
  - by rewrite get_node_store.
  - by apply delete_node_fingerprints.
Qed.

(** C3: in the store reached from the empty one by any sequence of calls,
    one after the other, at most one record has any given fingerprint. *)
Theorem fingerprint_unique (calls : list Call) (fp : string) :
  (length (filter (λ n, Node.fingerprint n = fp) (run calls [])) ≤ 1)%nat.
Proof.
  apply select_at_most_one.
  apply (run_invariant (λ db, NoDup (Node.fingerprint <$> db)));
    [apply step_fingerprints | apply NoDup_nil_2].
Qed.

Lemma timely_mono (clk clk' : datetime) (db : Store) :
  clk ≤ clk' → timely clk db → timely clk' db.
Proof. intros Hle Hdb n Hn. specialize (Hdb n Hn). lia. Qed.

Lemma UPDATE_timely (clk now : datetime) (set : Node.t → Node.t)
    (pk : string) (db : Store) :
  clk ≤ now →
  (∀ n, Node.registered_at (set n) = Node.registered_at n ∧
        Node.last_seen (set n) = now) →
  timely clk db → timely now (UPDATE set pk db).
Proof.
  intros Hle Hset Hdb n' (n & -> & Hn)%list_elem_of_fmap.
  specialize (Hdb n Hn). destruct (decide (Node.id n = pk)); [|lia].
  destruct (Hset n) as [-> ->]. lia.
Qed.

Lemma create_node_timely (clk now : datetime) new_id (node : NodeCreate.t)
    (db : Store) :
  clk ≤ now → timely clk db → timely now (create_node now new_id node db).2.
Proof.
  intros Hle Hdb. rewrite create_node_eq.
  destruct (filter _ db) as [|existing [|]]; simpl.
  - intros n [Hn|Hn]%elem_of_app.
    + specialize (Hdb n Hn). lia.
    + apply list_elem_of_singleton in Hn as ->. simpl. lia.
  - destruct (dict_truthy _); [destruct (Node.node_metadata existing)|];
      simpl; [|by apply (timely_mono clk)|];
      by apply (UPDATE_timely clk).
  - by apply (timely_mono clk).
Qed.

Lemma delete_node_timely (clk : datetime) (node_id : string) (db : Store) :
  timely clk db → timely clk (delete_node node_id db).2.
Proof.
  intros Hdb. rewrite delete_node_eq.
  destruct (filter _ db) as [|node [|]]; simpl; [done| |done].
  intros n [_ Hn]%list_elem_of_filter. by apply Hdb.
Qed.

Lemma run_timely (calls : list Call) (clk : datetime) (db : Store) :
  timely clk db → non_decreasing clk (readings calls) = true →
  ∃ clk', timely clk' (run calls db).
Proof.
  unfold run. revert clk db.
  induction calls as [|c calls IH]; intros clk db Hdb Hclk; [by exists clk|].
  destruct c as [now new_id node| |node_id|node_id];
    simpl in Hclk; cbn [foldl step].
  - apply andb_true_iff in Hclk as [Hle%Z.leb_le Hclk].
    apply (IH now); [|done]. by apply (create_node_timely clk).
  - apply (IH clk); [|done]. by rewrite list_nodes_eq.
  - apply (IH clk); [|done]. by rewrite get_node_store.
  - apply (IH clk); [|done]. by apply delete_node_timely.
Qed.

(** C7: when the clock never goes back from one call to the next, every
    record of the store reached from the empty one by any sequence of calls
    has [registered_at] at most [last_seen]. *)
Theorem registered_before_seen (start : datetime) (calls : list Call) :
  non_decreasing start (readings calls) = true →
  ∀ n, n ∈ run calls [] → Node.registered_at n ≤ Node.last_seen n.
Proof.
  intros Hclk n Hn.
  destruct (run_timely calls start []) as [clk Hdb]; [|done|].
  - by intros m Hm%elem_of_nil.
  - by destruct (Hdb n Hn).
Qed.

Lemma registered_before_seen_witness :
  non_decreasing 0
    (readings [Register 10 "id1" req_n1; ListAll;
               Register 20 "id2" req_n1_renamed; GetById "id1";
               Register 20 "id3" req_n2]) = true ∧
  ∀ n, n ∈ run [Register 10 "id1" req_n1; ListAll;
                Register 20 "id2" req_n1_renamed; GetById "id1";
                Register 20 "id3" req_n2] [] →
       Node.registered_at n ≤ Node.last_seen n.
Proof.
  split; [reflexivity|].
  apply (registered_before_seen 0). reflexivity.
Defined.

(** ** Listing *)

Lemma NodeResponse_of_same (n : Node.t) :
  is_Some (Node.node_metadata n) → same_record n (NodeResponse_of n).
Proof.
  intros [d Hd]. repeat split.
  by rewrite NodeResponse_of_metadata, Hd.
Qed.

(** Registrations under fingerprints that are new to the store and differ
    from one another all succeed, and the records they return are what the
    store gains, in order. *)
Lemma register_all_fresh (reqs : list (datetime * string * NodeCreate.t))
    (db : Store) :
  NoDup ((λ q, NodeCreate.fingerprint q.2) <$> reqs) →
  (∀ q n, q ∈ reqs → n ∈ db →
          Node.fingerprint n ≠ NodeCreate.fingerprint q.2) →
  ∃ regs, register_all reqs db = (inr regs, db ++ regs) ∧
          length regs = length reqs ∧
          Forall (λ r, is_Some (Node.node_metadata r)) regs.
Proof.
  revert db. induction reqs as [|[[now new_id] node] reqs IH]; intros db Hnd Hdb.
  - exists []. by rewrite (right_id_L [] (++)).
  - rewrite fmap_cons in Hnd. apply NoDup_cons in Hnd as [Hq Hnd].
    set (r := Node_init new_id now (NodeCreate.name node)
                (NodeCreate.fingerprint node) "active" (NodeCreate.metadata node)).
    assert (Hr : create_node now new_id node db = (inr r, db ++ [r])).
    { apply create_node_absent. intros n Hn.
      apply (Hdb (now, new_id, node) n); [left|done]. }
    destruct (IH (db ++ [r]) Hnd) as (regs & Hregs & Hlen & Hmd).
    { intros q n Hq' [Hn|Hn]%elem_of_app.
      - apply Hdb; [by right|done].
      - apply list_elem_of_singleton in Hn as ->. simpl. intros E.
        apply Hq. apply list_elem_of_fmap. by exists q. }
    exists (r :: regs). split; [|split].
    + cbn [register_all]. unfold mbind, Handler_bind.
      rewrite Hr, Hregs. simpl. by rewrite <- (assoc_L (++)).
    + simpl. by rewrite Hlen.
    + constructor; [by eexists|done].
Qed.

(** C8: [list_nodes] returns every record of the store, in order, as its
    serialization, the metadata defaulted to the empty mapping when stored
    as null; and after registrations under pairwise distinct fingerprints from
    the empty store, all of which succeed, it returns as many records as
    there were registrations, the i-th equal field for field to what the i-th
    registration returned. *)
Theorem list_completeness :
  (∀ db : Store, ∃ rs, list_nodes db = (inr rs, db) ∧ Forall2 serializes db rs)
  ∧ (∀ reqs : list (datetime * string * NodeCreate.t),
       NoDup ((λ q, NodeCreate.fingerprint q.2) <$> reqs) →
       ∃ regs db rs,
         register_all reqs [] = (inr regs, db) ∧
         list_nodes db = (inr rs, db) ∧
         length rs = length reqs ∧
         Forall2 same_record regs rs).
Proof.
  split.
  - intros db. exists (NodeResponse_of <$> db). split; [apply list_nodes_eq|].
    apply Forall2_fmap_r, Forall_Forall2_diag, Forall_forall.
    intros n _. apply NodeResponse_of_serializes.
  - intros reqs Hnd.
    destruct (register_all_fresh reqs [] Hnd) as (regs & Hregs & Hlen & Hmd).
    { intros q n _ Hn. by apply elem_of_nil in Hn. }
    exists regs, regs, (NodeResponse_of <$> regs).
    split; [done|]. split; [apply list_nodes_eq|].
    split; [by rewrite length_fmap|].
    apply Forall2_fmap_r, Forall_Forall2_diag.
    eapply Forall_impl; [exact Hmd|]. intros n. apply NodeResponse_of_same.
Qed.

Lemma list_completeness_witness :
  NoDup ((λ q : datetime * string * NodeCreate.t, NodeCreate.fingerprint q.2)
           <$> [(10, "id1", req_n1); (20, "id2", req_n2)]) ∧
  ∃ regs db rs,
    register_all [(10, "id1", req_n1); (20, "id2", req_n2)] [] =
      (inr regs, db) ∧
    list_nodes db = (inr rs, db) ∧
    length rs = length [(10, "id1", req_n1); (20, "id2", req_n2)] ∧
    Forall2 same_record regs rs.
Proof.
  assert (Hnd : NoDup ((λ q : datetime * string * NodeCreate.t,
                          NodeCreate.fingerprint q.2)
                         <$> [(10, "id1", req_n1); (20, "id2", req_n2)])).
  { apply (bool_decide_unpack _). vm_compute. exact I. }
  split; [exact Hnd|].
  exact (proj2 list_completeness [(10, "id1", req_n1); (20, "id2", req_n2)] Hnd).
Defined.


(** * Further properties of the endpoints *)

(** ** What every row of a store built by the endpoints satisfies *)

Section rows.
Variable P : Node.t → Prop.
Hypothesis P_init : ∀ now new_id name fp md, P (Node_init new_id now name fp "active" md).
Hypothesis P_touch : ∀ now n, P n → P (touch now n).
Hypothesis P_merge : ∀ now n md,
  P n → P ((Node.set_node_metadata (Some md) ∘ touch now) n).

Lemma UPDATE_Forall (set : Node.t → Node.t) (pk : string) (db : Store) :
  (∀ n, P n → P (set n)) → Forall P db → Forall P (UPDATE set pk db).
Proof.
  intros Hset Hdb. unfold UPDATE. apply Forall_fmap.
  eapply Forall_impl; [exact Hdb|]. intros n Hn. simpl.
  destruct (decide (Node.id n = pk)); auto.
Qed.

Lemma step_Forall (db : Store) (c : Call) : Forall P db → Forall P (step db c).
Proof.
  intros Hdb. destruct c as [now new_id node| |node_id|node_id]; unfold step.
  - rewrite create_node_eq.
    destruct (filter _ db) as [|existing [|]]; simpl; [| |done].
    + apply Forall_app. split; [done|]. apply Forall_singleton, P_init.
    + destruct (dict_truthy _); [destruct (Node.node_metadata existing)|];
        simpl; [|done|]; apply UPDATE_Forall; auto.
  - by rewrite list_nodes_eq.
  - by rewrite get_node_store.
  - rewrite delete_node_eq.
    destruct (filter _ db) as [|node [|]]; simpl; [done| |done].
    apply Forall_forall. intros n [_ Hn]%list_elem_of_filter.
    revert n Hn. by apply Forall_forall.
Qed.

Lemma run_Forall (calls : list Call) : Forall P (run calls []).
Proof.
  apply (run_invariant (Forall P)); [apply step_Forall | constructor].
Qed.
End rows.

(** In the store reached from the empty one by any sequence of calls, no row
    has a null metadata column: a new row stores [node.metadata or {}], and a
    re-registration stores the merged mapping or leaves the column alone. *)
Theorem metadata_stored_after_calls (calls : list Call) :
  Forall (λ n, is_Some (Node.node_metadata n)) (run calls []).
Proof.
  apply (run_Forall (λ n, is_Some (Node.node_metadata n))); by eauto.
Qed.

(** In the store reached from the empty one by any sequence of calls, every
    row has the status ["active"]: it is the only status the endpoints ever
    assign. *)
Theorem status_active_after_calls (calls : list Call) :
  Forall (λ n, Node.status n = "active") (run calls []).
Proof. apply (run_Forall (λ n, Node.status n = "active")); done. Qed.

Lemma create_node_succeeds now new_id (node : NodeCreate.t) (db : Store) :
  NoDup (Node.fingerprint <$> db) →
  Forall (λ n, is_Some (Node.node_metadata n)) db →
  ∃ r, (create_node now new_id node db).1 = inr r.
Proof.
  intros Hnd Hmd. rewrite create_node_eq.
  pose proof (select_at_most_one Node.fingerprint
                (NodeCreate.fingerprint node) db Hnd) as Hlen.
  destruct (filter _ db) as [|existing [|]] eqn:Hsel; simpl in *; [| |lia].
  - by eexists.
  - apply (select_singleton_elem Node.fingerprint) in Hsel as [Hex _].
    destruct (proj1 (Forall_forall _ _) Hmd existing Hex) as [d ->].
    destruct (dict_truthy _); by eexists.
Qed.

(** On the store reached from the empty one by any sequence of calls, a
    registration never raises: it returns a record, whatever the request. *)
Theorem register_succeeds_after_calls (calls : list Call) now new_id
    (node : NodeCreate.t) :
  ∃ r, (create_node now new_id node (run calls [])).1 = inr r.
Proof.
  apply create_node_succeeds.
  - apply (run_invariant (λ db, NoDup (Node.fingerprint <$> db)));
      [apply step_fingerprints | apply NoDup_nil_2].
  - apply (run_Forall (λ n, is_Some (Node.node_metadata n))); by eauto.
Qed.

(** ** The primary key *)

Lemma ids_UPDATE (set : Node.t → Node.t) (pk : string) (db : Store) :
  (∀ n, Node.id (set n) = Node.id n) →
  Node.id <$> UPDATE set pk db = Node.id <$> db.
Proof.
  intros Hset. unfold UPDATE. rewrite <- list_fmap_compose.
  apply list_fmap_ext. intros _ n _. simpl.
  by destruct (decide (Node.id n = pk)).
Qed.

(** The ids after a registration: those before, followed by the generated id
    when a row was inserted. *)
Lemma create_node_ids now new_id (node : NodeCreate.t) (db : Store) :
  Node.id <$> (create_node now new_id node db).2 =
    (Node.id <$> db) ++
    match filter (λ n, Node.fingerprint n = NodeCreate.fingerprint node) db with
    | [] => [new_id]
    | _ => []
    end.
Proof.
  rewrite create_node_eq.
  destruct (filter _ db) as [|existing [|]]; simpl.
  - by rewrite fmap_app.
  - rewrite (right_id_L [] (++)).
    destruct (dict_truthy _); [destruct (Node.node_metadata existing)|];
      simpl; [|done|]; by rewrite ids_UPDATE.
  - by rewrite (right_id_L [] (++)).
Qed.

Lemma create_node_unique_ids now new_id (node : NodeCreate.t) (db : Store) :
  new_id ∉ Node.id <$> db → NoDup (Node.id <$> db) →
  NoDup (Node.id <$> (create_node now new_id node db).2).
Proof.
  intros Hfresh Hnd. rewrite create_node_ids.
  destruct (filter _ db); [|by rewrite (right_id_L [] (++))].
  apply NoDup_app. split; [done|]. split; [|apply NoDup_singleton].
  intros i Hi ->%list_elem_of_singleton. by apply Hfresh.
Qed.

Lemma run_unique_ids (calls : list Call) (db : Store) :
  NoDup (Node.id <$> db) → fresh_ids calls db = true →
  NoDup (Node.id <$> run calls db).
Proof.
  unfold run. revert db.
  induction calls as [|c calls IH]; intros db Hnd Hfresh; [done|].
  cbn [fresh_ids] in Hfresh. apply andb_true_iff in Hfresh as [Hc Hfresh].
  cbn [foldl]. apply IH; [|done].
  destruct c as [now new_id node| |node_id|node_id]; unfold step.
  - apply create_node_unique_ids; [|done]. by apply bool_decide_eq_true in Hc.
  - by rewrite list_nodes_eq.
  - by rewrite get_node_store.
  - rewrite delete_node_eq.
    destruct (filter _ db) as [|node [|]]; simpl; [done| |done].
    by apply NoDup_fmap_filter.
Qed.

(** When the generator hands each registration an id that no row has at that
    time, the ids of the store reached from the empty one by any sequence of
    calls are pairwise distinct: a re-registration assigns no id and a
    deletion only removes rows. *)
Theorem ids_unique_after_calls (calls : list Call) :
  fresh_ids calls [] = true → NoDup (Node.id <$> run calls []).
Proof. apply run_unique_ids, NoDup_nil_2. Qed.

Lemma ids_unique_after_calls_witness :
  fresh_ids [Register 10 "id1" req_n1; Register 20 "id7" req_n1_renamed;
             Register 20 "id2" req_n2; DeleteById "id1";
             Register 30 "id1" req_n1] [] = true ∧
  NoDup (Node.id <$> run [Register 10 "id1" req_n1;
                          Register 20 "id7" req_n1_renamed;
                          Register 20 "id2" req_n2; DeleteById "id1";
                          Register 30 "id1" req_n1] []).
Proof.
  split.
  - vm_compute. reflexivity.
  - apply ids_unique_after_calls. vm_compute. reflexivity.
Defined.

(** ** How the endpoints compose *)

Lemma create_node_with_returned (tracked : bool) now new_id
    (node : NodeCreate.t) (db : Store) (r : Node.t) :
  (create_node_with tracked now new_id node db).1 = inr r →
  r ∈ (create_node_with tracked now new_id node db).2.
Proof.
  rewrite create_node_with_eq.
  destruct (filter _ db) as [|existing [|]] eqn:Hsel; simpl; [| |done].
  - intros [= <-]. apply elem_of_app. right. left.
  - apply (select_singleton_elem Node.fingerprint) in Hsel as [Hex _].
    destruct (dict_truthy _); [destruct (Node.node_metadata existing)|];
      simpl; [|done|]; intros [= <-]; unfold UPDATE;
      (apply (list_elem_of_fmap_2' _ _ existing); [done|]);
      by rewrite decide_True.
Qed.

Lemma create_node_with_unique_ids (tracked : bool) now new_id
    (node : NodeCreate.t) (db : Store) :
  new_id ∉ Node.id <$> db → NoDup (Node.id <$> db) →
  NoDup (Node.id <$> (create_node_with tracked now new_id node db).2).
Proof.
  intros Hfresh Hnd. rewrite create_node_with_eq.
  destruct (filter _ db) as [|existing [|]]; simpl; [| |done].
  - rewrite fmap_app. apply NoDup_app. split; [done|].
    split; [|apply NoDup_singleton].
    intros i Hi ->%list_elem_of_singleton. by apply Hfresh.
  - destruct (dict_truthy _); [destruct (Node.node_metadata existing)|];
      simpl; [|done|]; rewrite ids_UPDATE; try done.
    by destruct tracked.
Qed.

(** A record returned by a registration can be read back by its id, whichever
    way the metadata column is declared: on a table whose ids are distinct,
    and with a generated id that no row has, [get_node] on the id of the
    returned record gives a response with that record's id, name,
    fingerprint, status, timestamps and metadata (the empty mapping for a
    null column), and leaves the table as the registration left it. *)
Theorem get_after_register (tracked : bool) now new_id (node : NodeCreate.t)
    (db : Store) (r : Node.t) :
  NoDup (Node.id <$> db) → new_id ∉ Node.id <$> db →
  (create_node_with tracked now new_id node db).1 = inr r →
  ∃ resp,
    get_node (Node.id r) (create_node_with tracked now new_id node db).2 =
      (inr resp, (create_node_with tracked now new_id node db).2) ∧
    serializes r resp.
Proof.
  intros Hnd Hfresh Hr. exists (NodeResponse_of r).
  split; [|apply NodeResponse_of_serializes].
  apply get_node_found.
  - by apply create_node_with_unique_ids.
  - by apply create_node_with_returned.
Qed.

Lemma get_after_register_witness :
  NoDup (Node.id <$> [node_n1; node_null]) ∧
  ("id4" ∉ Node.id <$> [node_n1; node_null]) ∧
  (create_node_with false 40 "id4" req_n2 [node_n1; node_null]).1 =
    inr (Node.mk "id4" "n2" "fp2" "active" 40 40
           (Some (NodeCreate.metadata req_n2))) ∧
  ∃ resp,
    get_node "id4"
      (create_node_with false 40 "id4" req_n2 [node_n1; node_null]).2 =
      (inr resp,
       (create_node_with false 40 "id4" req_n2 [node_n1; node_null]).2) ∧
    serializes (Node.mk "id4" "n2" "fp2" "active" 40 40
                  (Some (NodeCreate.metadata req_n2))) resp.
Proof.
  assert (Hnd : NoDup (Node.id <$> [node_n1; node_null])).
  { apply (bool_decide_unpack _). vm_compute. exact I. }
  assert (Hfresh : "id4" ∉ Node.id <$> [node_n1; node_null]).
  { apply (bool_decide_unpack _). vm_compute. exact I. }
  assert (Hr : (create_node_with false 40 "id4" req_n2
                  [node_n1; node_null]).1 =
               inr (Node.mk "id4" "n2" "fp2" "active" 40 40
                      (Some (NodeCreate.metadata req_n2))))
    by (vm_compute; reflexivity).
  split; [exact Hnd|]. split; [exact Hfresh|]. split; [exact Hr|].
  exact (get_after_register false 40 "id4" req_n2 [node_n1; node_null] _
           Hnd Hfresh Hr).
Defined.




(** ** Failures *)

Lemma delete_node_failed (node_id : string) (db : Store) (e : Exception) :
  (delete_node node_id db).1 = inl e → (delete_node node_id db).2 = db.
Proof.
  rewrite delete_node_eq. by destruct (filter _ db) as [|? [|]].
Qed.

Lemma create_node_failed now new_id (node : NodeCreate.t) (db : Store)
    (e : Exception) :
  (create_node now new_id node db).1 = inl e →
  (create_node now new_id node db).2 = db.
Proof.
  rewrite create_node_eq.
  destruct (filter _ db) as [|existing [|]]; simpl; [done| |done].
  destruct (dict_truthy _); [destruct (Node.node_metadata existing)|]; done.
Qed.

(** A call that raises writes nothing: whichever endpoint it is and whatever
    it raises, the table after the call is the table before it. *)
Theorem failed_call_writes_nothing now new_id (node : NodeCreate.t)
    (node_id : string) (db : Store) (e : Exception) :
  ((create_node now new_id node db).1 = inl e →
     (create_node now new_id node db).2 = db) ∧
  ((list_nodes db).1 = inl e → (list_nodes db).2 = db) ∧
  ((get_node node_id db).1 = inl e → (get_node node_id db).2 = db) ∧
  ((delete_node node_id db).1 = inl e → (delete_node node_id db).2 = db).
Proof.
  split; [apply create_node_failed|]. split; [by rewrite list_nodes_eq|].
  split; [intros _; apply get_node_store | apply delete_node_failed].
Qed.

Lemma failed_call_writes_nothing_witness :
  (create_node 40 "id4" (NodeCreate.mk "n3" "fp3" {[ "rack" := JStr "5" ]})
     [node_n1; node_null]).1 = inl AttributeError ∧
  (create_node 40 "id4" (NodeCreate.mk "n3" "fp3" {[ "rack" := JStr "5" ]})
     [node_n1; node_null]).2 = [node_n1; node_null].
Proof.
  assert (H : (create_node 40 "id4"
                 (NodeCreate.mk "n3" "fp3" {[ "rack" := JStr "5" ]})
                 [node_n1; node_null]).1 = inl AttributeError)
    by reflexivity.
  split; [exact H|].
  exact (proj1 (failed_call_writes_nothing 40 "id4"
                  (NodeCreate.mk "n3" "fp3" {[ "rack" := JStr "5" ]})
                  "id1" [node_n1; node_null] AttributeError) H).
Defined.

(** [get_node] and [delete_node] fail on the same ids with the same
    exception: both look the id up in the same way before doing anything
    else. *)
Theorem lookup_errors_agree (node_id : string) (db : Store) (e : Exception) :
  (get_node node_id db).1 = inl e ↔ (delete_node node_id db).1 = inl e.
Proof.
  rewrite get_node_eq, delete_node_eq.
  destruct (filter _ db) as [|? [|]]; simpl.
  all: split; intros H; first [discriminate H | by injection H as <-].
Qed.

(** The lookup of a key that two rows carry. *)
Lemma select_two {K : Type} `{EqDecision K} (key : Node.t → K) (k : K)
    (a b : Node.t) (l1 l2 l3 : Store) :
  key a = k → key b = k →
  ∃ x y rest,
    filter (λ n, key n = k) (l1 ++ a :: l2 ++ b :: l3) = x :: y :: rest.
Proof.
  intros Ha Hb.
  rewrite filter_app, filter_cons_True, filter_app, filter_cons_True by done.
  destruct (filter _ l1) as [|x1 [|y1 r1]]; simpl.
  - destruct (filter _ l2) as [|x2 r2]; simpl; by eauto.
  - by eauto.
  - by eauto.
Qed.

(** An id that two rows carry cannot be read or deleted: both lookups raise
    [MultipleResultsFound], not the 404, and the table keeps both rows. *)
Theorem duplicate_id_raises (node_id : string) (a b : Node.t)
    (l1 l2 l3 : Store) :
  Node.id a = node_id → Node.id b = node_id →
  let db := l1 ++ a :: l2 ++ b :: l3 in
  get_node node_id db = (inl MultipleResultsFound, db) ∧
  delete_node node_id db = (inl MultipleResultsFound, db).
Proof.
  intros Ha Hb db. unfold db. rewrite get_node_eq, delete_node_eq.
  by destruct (select_two Node.id node_id a b l1 l2 l3 Ha Hb)
    as (x & y & rest & ->).
Qed.

Lemma duplicate_id_raises_witness :
  Node.id node_n1 = "id1" ∧
  Node.id (Node.mk "id1" "n9" "fp9" "active" 5 5 None) = "id1" ∧
  get_node "id1"
    ([] ++ node_n1 :: [node_n2] ++ Node.mk "id1" "n9" "fp9" "active" 5 5 None :: []) =
    (inl MultipleResultsFound,
     [] ++ node_n1 :: [node_n2] ++ Node.mk "id1" "n9" "fp9" "active" 5 5 None :: []) ∧
  delete_node "id1"
    ([] ++ node_n1 :: [node_n2] ++ Node.mk "id1" "n9" "fp9" "active" 5 5 None :: []) =
    (inl MultipleResultsFound,
     [] ++ node_n1 :: [node_n2] ++ Node.mk "id1" "n9" "fp9" "active" 5 5 None :: []).
Proof.
  split; [reflexivity|]. split; [reflexivity|].
  exact (duplicate_id_raises "id1" node_n1
           (Node.mk "id1" "n9" "fp9" "active" 5 5 None) [] [node_n2] []
           eq_refl eq_refl).
Defined.

(** A fingerprint that two rows carry cannot be registered again: the call
    raises [MultipleResultsFound] and touches neither row. *)
Theorem duplicate_fingerprint_raises now new_id (node : NodeCreate.t)
    (a b : Node.t) (l1 l2 l3 : Store) :
  Node.fingerprint a = NodeCreate.fingerprint node →
  Node.fingerprint b = NodeCreate.fingerprint node →
  let db := l1 ++ a :: l2 ++ b :: l3 in
  create_node now new_id node db = (inl MultipleResultsFound, db).
Proof.
  intros Ha Hb db. unfold db. rewrite create_node_eq.
  by destruct (select_two Node.fingerprint _ a b l1 l2 l3 Ha Hb)
    as (x & y & rest & ->).
Qed.

Lemma duplicate_fingerprint_raises_witness :
  Node.fingerprint node_n1 = NodeCreate.fingerprint req_n1_renamed ∧
  Node.fingerprint (Node.mk "id9" "n9" "fp1" "active" 5 5 None) =
    NodeCreate.fingerprint req_n1_renamed ∧
  create_node 40 "id4" req_n1_renamed
    ([] ++ node_n1 :: [node_n2] ++ Node.mk "id9" "n9" "fp1" "active" 5 5 None :: []) =
    (inl MultipleResultsFound,
     [] ++ node_n1 :: [node_n2] ++ Node.mk "id9" "n9" "fp1" "active" 5 5 None :: []).
Proof.
  split; [reflexivity|]. split; [reflexivity|].
  exact (duplicate_fingerprint_raises 40 "id4" req_n1_renamed node_n1
           (Node.mk "id9" "n9" "fp1" "active" 5 5 None) [] [node_n2] []
           eq_refl eq_refl).
Defined.

(** ** What the writing endpoints leave in place *)

(** A deletion only removes: every row under another id stays, no row
    appears, and a deletion that succeeds leaves one row fewer, none of them
    under the deleted id. *)
Theorem delete_node_removes_only (node_id : string) (db : Store) :
  (∀ n, n ∈ db → Node.id n ≠ node_id → n ∈ (delete_node node_id db).2) ∧
  (∀ n, n ∈ (delete_node node_id db).2 → n ∈ db) ∧
  (∀ ack, (delete_node node_id db).1 = inr ack →
     S (length (delete_node node_id db).2) = length db ∧
     ∀ n, n ∈ (delete_node node_id db).2 → Node.id n ≠ node_id).
Proof.
  rewrite delete_node_eq.
  destruct (filter _ db) as [|node [|]] eqn:Hsel; simpl;
    [by repeat split; intros; try done| |by repeat split; intros; try done].
  pose proof (select_singleton_elem Node.id _ _ _ Hsel) as [_ Hid].
  unfold DELETE. rewrite Hid. split; [|split].
  - intros n Hn Hne. by apply list_elem_of_filter.
  - by intros n [_ Hn]%list_elem_of_filter.
  - intros _ _. split; [|by intros n [Hne _]%list_elem_of_filter].
    pose proof (filter_app_complement (λ n, Node.id n = node_id) db) as Hp.
    apply Permutation_length in Hp. rewrite length_app, Hsel in Hp.
    simpl in Hp. by rewrite <- Hp.
Qed.

Lemma key_UPDATE {K : Type} (key : Node.t → K) (set : Node.t → Node.t)
    (pk : string) (db : Store) :
  (∀ n, key (set n) = key n) → key <$> UPDATE set pk db = key <$> db.
Proof.
  intros Hset. unfold UPDATE. rewrite <- list_fmap_compose.
  apply list_fmap_ext. intros _ n _. simpl.
  by destruct (decide (Node.id n = pk)).
Qed.

(** A registration never removes or reorders rows and never assigns an id, a
    name, a fingerprint or a [registered_at]: these four columns of the table
    after the call start with what they were before it, and at most one row
    is added. *)
Theorem create_node_keeps_rows now new_id (node : NodeCreate.t) (db : Store) :
  ((λ n, (Node.id n, Node.name n, Node.fingerprint n, Node.registered_at n))
     <$> db) `prefix_of`
  ((λ n, (Node.id n, Node.name n, Node.fingerprint n, Node.registered_at n))
     <$> (create_node now new_id node db).2) ∧
  (length db ≤ length (create_node now new_id node db).2 ≤ S (length db))%nat.
Proof.
  rewrite create_node_eq.
  destruct (filter _ db) as [|existing [|]]; simpl.
  - split; [rewrite fmap_app; by eexists|]. rewrite length_app. simpl. lia.
  - destruct (dict_truthy _); [destruct (Node.node_metadata existing)|];
      simpl; [|split; [done|lia]|];
      (split; [by rewrite key_UPDATE|]);
      unfold UPDATE; rewrite length_fmap; lia.
  - split; [done|lia].
Qed.

(** With a clock reading that no stored [last_seen] exceeds, a registration
    lowers the [last_seen] of no row: every row keeps its place, with a
    [last_seen] at least what it was. *)
Theorem last_seen_never_decreases now new_id (node : NodeCreate.t)
    (db : Store) :
  (∀ n, n ∈ db → Node.last_seen n ≤ now) →
  ∀ i n, db !! i = Some n →
    ∃ n', (create_node now new_id node db).2 !! i = Some n' ∧
          Node.last_seen n ≤ Node.last_seen n'.
Proof.
  intros Hle i n Hi.
  assert (Hn : n ∈ db) by (apply list_elem_of_lookup; eauto).
  assert (Hupd : ∀ set pk, (∀ m, Node.last_seen (set m) = now) →
            ∃ n', UPDATE set pk db !! i = Some n' ∧
                  Node.last_seen n ≤ Node.last_seen n').
  { intros set pk Hset. unfold UPDATE. rewrite list_lookup_fmap, Hi. simpl.
    eexists. split; [done|].
    destruct (decide (Node.id n = pk)); [rewrite Hset; by apply Hle|lia]. }
  rewrite create_node_eq.
  destruct (filter _ db) as [|existing [|]]; simpl.
  - exists n. split; [|lia]. by apply lookup_app_l_Some.
  - destruct (dict_truthy _); [destruct (Node.node_metadata existing)|];
      simpl; [|exists n; split; [done|lia]|]; by apply Hupd.
  - exists n. split; [done|lia].
Qed.

Lemma last_seen_never_decreases_witness :
  (∀ n, n ∈ [node_n1; node_n2] → Node.last_seen n ≤ 40) ∧
  ∃ n', (create_node 40 "id4" req_n1_renamed [node_n1; node_n2]).2 !! 0%nat
          = Some n' ∧
        Node.last_seen node_n1 ≤ Node.last_seen n'.
Proof.
  assert (H : ∀ n, n ∈ [node_n1; node_n2] → Node.last_seen n ≤ 40).
  { intros n Hn. apply elem_of_cons in Hn as [->|Hn]; [simpl; lia|].
    apply elem_of_cons in Hn as [->|Hn]; [simpl; lia|].
    by apply elem_of_nil in Hn. }
  split; [exact H|].
  exact (last_seen_never_decreases 40 "id4" req_n1_renamed [node_n1; node_n2]
           H 0%nat node_n1 eq_refl).
Defined.

(** ** Re-registration *)

(** Re-registering the fingerprint of a stored record that holds a mapping
    (fingerprints being distinct), for either declaration of the metadata
    column: the call returns the stored record with status ["active"] and
    [last_seen] at the clock reading. When the column tracks in-place
    changes, its metadata has, under each key, the request's value if the
    request has the key and the stored value otherwise; when it does not, the
    in-place update is not written and the metadata is the stored mapping.
    Either way no stored key is lost. *)
Theorem reregister_merges (tracked : bool) now new_id (node : NodeCreate.t)
    (db : Store) (n : Node.t) (d : dict) :
  NoDup (Node.fingerprint <$> db) → n ∈ db →
  Node.fingerprint n = NodeCreate.fingerprint node →
  Node.node_metadata n = Some d →
  ∃ r md,
    (create_node_with tracked now new_id node db).1 = inr r ∧
    r ∈ (create_node_with tracked now new_id node db).2 ∧
    Node.id r = Node.id n ∧
    Node.status r = "active" ∧
    Node.last_seen r = now ∧
    Node.node_metadata r = Some md ∧
    (∀ k, md !! k = if tracked
                    then match NodeCreate.metadata node !! k with
                         | Some v => Some v
                         | None => d !! k
                         end
                    else d !! k) ∧
    (∀ k, is_Some (d !! k) → is_Some (md !! k)).
Proof.
  intros Hnd Hn Hfp Hmd.
  assert (Hin : ∀ set, set n ∈ UPDATE set (Node.id n) db).
  { intros set. unfold UPDATE. apply (list_elem_of_fmap_2' _ _ n); [done|].
    by rewrite decide_True. }
  assert (Hkeep : ∃ r md,
            (inr (touch now n) : Exception + Node.t) = inr r ∧
            r ∈ UPDATE (touch now) (Node.id n) db ∧
            Node.id r = Node.id n ∧ Node.status r = "active" ∧
            Node.last_seen r = now ∧ Node.node_metadata r = Some md ∧
            (∀ k, md !! k = d !! k) ∧
            (∀ k, is_Some (d !! k) → is_Some (md !! k))).
  { exists (touch now n), d. split; [done|]. split; [apply Hin|].
    repeat split; try done. }
  rewrite create_node_with_eq, <- Hfp.
  rewrite (select_unique Node.fingerprint n db Hnd Hn), Hmd.
  destruct (dict_truthy _) eqn:E; [destruct tracked|]; simpl.
  - eexists _, _. split; [done|].
    split; [apply (Hin (Node.set_node_metadata
                          (Some (dict_update d (NodeCreate.metadata node)))
                          ∘ touch now))|].
    split; [done|]. split; [done|]. split; [done|]. split; [done|].
    split; [apply lookup_dict_update|].
    intros k Hk. rewrite lookup_dict_update.
    by destruct (NodeCreate.metadata node !! k).
  - exact Hkeep.
  - apply dict_truthy_false in E.
    destruct Hkeep as (r & md & Hr & Hrin & Hi & Hs & Hl & Hm & Hlook & Hdom).
    exists r, md. repeat split; try done.
    intros k. rewrite Hlook, E, lookup_empty. by destruct tracked.
Qed.

Lemma reregister_merges_witness :
  NoDup (Node.fingerprint <$> [node_n1; node_n2]) ∧
  node_n1 ∈ [node_n1; node_n2] ∧
  Node.fingerprint node_n1 = NodeCreate.fingerprint req_n1_renamed ∧
  Node.node_metadata node_n1 = Some {[ "zone" := JStr "a" ]} ∧
  ∃ r md,
    (create_node_with false 40 "id4" req_n1_renamed [node_n1; node_n2]).1
      = inr r ∧
    r ∈ (create_node_with false 40 "id4" req_n1_renamed [node_n1; node_n2]).2 ∧
    Node.id r = Node.id node_n1 ∧
    Node.status r = "active" ∧
    Node.last_seen r = 40 ∧
    Node.node_metadata r = Some md ∧
    (∀ k, md !! k = ({[ "zone" := JStr "a" ]} : dict) !! k) ∧
    (∀ k, is_Some (({[ "zone" := JStr "a" ]} : dict) !! k) →
          is_Some (md !! k)).
Proof.
  assert (Hfp : NoDup (Node.fingerprint <$> [node_n1; node_n2])).
  { apply (bool_decide_unpack _). vm_compute. exact I. }
  assert (Hn : node_n1 ∈ [node_n1; node_n2]) by left.
  split; [exact Hfp|]. split; [exact Hn|].
  split; [reflexivity|]. split; [reflexivity|].
  exact (reregister_merges false 40 "id4" req_n1_renamed [node_n1; node_n2]
           node_n1 {[ "zone" := JStr "a" ]} Hfp Hn eq_refl eq_refl).
Defined.



(** Registering a new fingerprint under a fresh id and then the same
    fingerprint again, with another name and other metadata, leaves one more
    row than before the two calls, for either declaration of the metadata
    column: the first call's record, with its id, name and [registered_at],
    and [last_seen] at the second reading. Its metadata is the union of the
    two mappings in which the second call's items win when the column tracks
    in-place changes, and the first call's mapping when it does not. *)
Theorem register_then_reregister (tracked : bool) now1 now2 id1 id2
    (node1 node2 : NodeCreate.t) (db : Store) :
  (∀ n, n ∈ db → Node.fingerprint n ≠ NodeCreate.fingerprint node1) →
  (∀ n, n ∈ db → Node.id n ≠ id1) →
  NodeCreate.fingerprint node2 = NodeCreate.fingerprint node1 →
  let r :=
    Node.mk id1 (NodeCreate.name node1) (NodeCreate.fingerprint node1) "active"
      now1 now2
      (Some (if tracked
             then NodeCreate.metadata node2 ∪ NodeCreate.metadata node1
             else NodeCreate.metadata node1)) in
  create_node_with tracked now2 id2 node2
    (create_node_with tracked now1 id1 node1 db).2 = (inr r, db ++ [r]).
Proof.
  intros Habs Hid Hfp. simpl.
  rewrite (create_node_with_eq tracked now1).
  rewrite (proj2 (select_none Node.fingerprint _ db) Habs). simpl.
  set (n1 := Node_init _ _ _ _ _ _).
  assert (Hsel : filter (λ n, Node.fingerprint n = NodeCreate.fingerprint node1)
                   (db ++ [n1]) = [n1]).
  { rewrite filter_app, (proj2 (select_none Node.fingerprint _ db) Habs).
    by rewrite filter_cons_True. }
  assert (Hupd : ∀ set, UPDATE set (Node.id n1) (db ++ [n1]) = db ++ [set n1]).
  { intros set. unfold UPDATE. rewrite fmap_app.
    fold (UPDATE set (Node.id n1) db). rewrite UPDATE_absent by done.
    simpl. by rewrite decide_True. }
  rewrite create_node_with_eq, Hfp, Hsel.
  destruct (dict_truthy (NodeCreate.metadata node2)) eqn:E; simpl.
  - rewrite Hupd. destruct tracked; simpl; [|done].
    by rewrite dict_update_union.
  - apply dict_truthy_false in E. rewrite Hupd, E.
    destruct tracked; [|done]. by rewrite (left_id_L ∅ (∪)).
Qed.

Lemma register_then_reregister_witness :
  (∀ n, n ∈ [node_n2] → Node.fingerprint n ≠ NodeCreate.fingerprint req_n1) ∧
  (∀ n, n ∈ [node_n2] → Node.id n ≠ "id1") ∧
  NodeCreate.fingerprint req_n1_renamed = NodeCreate.fingerprint req_n1 ∧
  create_node_with false 40 "id4" req_n1_renamed
    (create_node_with false 10 "id1" req_n1 [node_n2]).2 =
    (inr (Node.mk "id1" "n1" "fp1" "active" 10 40
            (Some (NodeCreate.metadata req_n1))),
     [node_n2] ++
     [Node.mk "id1" "n1" "fp1" "active" 10 40
        (Some (NodeCreate.metadata req_n1))]).
Proof.
  assert (Hfp : ∀ n, n ∈ [node_n2] →
                     Node.fingerprint n ≠ NodeCreate.fingerprint req_n1).
  { intros n Hn. apply elem_of_cons in Hn as [->|Hn]; [done|].
    by apply elem_of_nil in Hn. }
  assert (Hid : ∀ n, n ∈ [node_n2] → Node.id n ≠ "id1").
  { intros n Hn. apply elem_of_cons in Hn as [->|Hn]; [done|].
    by apply elem_of_nil in Hn. }
  split; [exact Hfp|]. split; [exact Hid|]. split; [reflexivity|].
  exact (register_then_reregister false 10 40 "id1" "id4" req_n1
           req_n1_renamed [node_n2] Hfp Hid eq_refl).
Defined.
